(** * granola-archiver: the fetcher layer over the Granola client

    A shallow embedding of [src/archiver/granola_fetcher.py] and the
    properties its specification states about it.

    The module is a thin adapter: three read operations
    ([fetch_new_documents], [fetch_document_details],
    [fetch_document_by_id]) that call the external [GranolaClient] and
    filter or format what it returns.  The external client, the
    [dateutil] parser and the client's constructor are collaborators of
    the module: they appear here as data (a client record) or as section
    variables, never as code of this development. *)

From Stdlib Require Import ZArith List Bool Lia.
From stdpp Require Import base option list strings gmap.

Import ListNotations.
Local Open Scope string_scope.
Local Open Scope Z_scope.

(** ** Exceptions and results *)

(** The exceptions that can cross the module.  The module defines no
    exception of its own; it only lets these through. *)
Inductive PyError : Type :=
| ClientError (msg : string)   (* raised inside granola_client: network, auth, ... *)
| ParserError (input : string) (* dateutil.parser.ParserError *)
| TypeError (msg : string).    (* e.g. comparing naive and aware datetimes *)

Inductive Result (A : Type) : Type :=
| Ok (a : A)
| Raise (e : PyError).
Arguments Ok {A} a.
Arguments Raise {A} e.

Module ResultMonad.
Definition ret {A} (a : A) : Result A := Ok a.
Definition bind {A B} (r : Result A) (k : A -> Result B) : Result B :=
  match r with
  | Ok a => k a
  | Raise e => Raise e
  end.
End ResultMonad.

Declare Scope result_scope.
Delimit Scope result_scope with result.
Notation "x <- m ;; k" := (ResultMonad.bind m (fun x => k))
  (at level 100, m at next level, right associativity) : result_scope.

(** ** Data model *)

(** [datetime.datetime]: the calendar fields are kept as one number, the
    microseconds of the wall-clock reading counted from 0001-01-01T00:00;
    [tzinfo] is the UTC offset in microseconds of an aware value and
    [None] for a naive one. *)
Record datetime : Type := mk_datetime {
  wall : Z;
  tzinfo : option Z
}.

(** [timezone.utc] *)
Definition timezone_utc : Z := 0.

(** [dt.replace(tzinfo=tz)]: same wall-clock fields, new zone. *)
Definition replace_tzinfo (dt : datetime) (tz : Z) : datetime :=
  {| wall := wall dt; tzinfo := Some tz |}.

(** [a >= b] on datetimes.  Two aware values are compared as instants,
    two naive ones field by field, and a mixed pair raises [TypeError]. *)
Definition datetime_ge (a b : datetime) : Result bool :=
  match tzinfo a, tzinfo b with
  | Some oa, Some ob => Ok (wall b - ob <=? wall a - oa)
  | None, None => Ok (wall b <=? wall a)
  | _, _ => Raise (TypeError "can't compare offset-naive and offset-aware datetimes")
  end.

(** [granola_client.Document], restricted to the attributes read here. *)
Record Document : Type := mk_Document {
  document_id : string;
  updated_at : string;
  workspace_id : string
}.

(** A transcript segment: [text] is [None] when the object has no [text]
    attribute ([hasattr(segment, "text")] is false); [str_of] is what
    [str(segment)] returns. *)
Record TranscriptSegment : Type := mk_TranscriptSegment {
  text : option string;
  str_of : string
}.

(** Values of a metadata mapping. *)
Inductive PyValue : Type :=
| PyNone
| PyBool (b : bool)
| PyInt (n : Z)
| PyStr (s : string).

(** The object returned by [get_document_metadata].  [model_dump] is
    [None] when the object has no such attribute, and otherwise the
    outcome of calling it. *)
Record MetadataObj : Type := mk_MetadataObj {
  model_dump : option (Result (gmap string PyValue))
}.

(** The async generator returned by [list_all_documents()], as the finite
    sequence of what successive [__anext__] calls produce: an item, the
    end of the iteration, or an exception. *)
Inductive AsyncGen : Type :=
| GenStop
| GenYield (doc : Document) (rest : AsyncGen)
| GenRaise (e : PyError).

(** The generator that yields the documents of [docs] and then goes on
    as [rest]. *)
Fixpoint gen_then (docs : list Document) (rest : AsyncGen) : AsyncGen :=
  match docs with
  | [] => rest
  | doc :: docs' => GenYield doc (gen_then docs' rest)
  end.

(** The generator that yields the documents of [docs] and stops. *)
Definition gen_of_list (docs : list Document) : AsyncGen := gen_then docs GenStop.

(** The external client, as the three calls this module makes on it. *)
Record GranolaClient : Type := mk_GranolaClient {
  list_all_documents : AsyncGen;
  get_document_transcript : string -> Result (list TranscriptSegment);
  get_document_metadata : string -> Result MetadataObj
}.

(** [DocumentDetails] *)
Record DocumentDetails : Type := mk_DocumentDetails {
  document : Document;
  transcript : string;
  metadata : gmap string PyValue
}.

(** [GranolaFetcher]: its instance attributes. *)
Record GranolaFetcher : Type := mk_GranolaFetcher {
  client : GranolaClient
}.

(** ** The effects of an operation *)

(** What an operation does to the outside, in order. *)
Inductive Event : Type :=
| CallListAll                  (* self.client.list_all_documents() *)
| Fetched (doc : Document)     (* the generator delivered one item *)
| CallTranscript (id : string) (* self.client.get_document_transcript(id) *)
| CallMetadata (id : string).  (* self.client.get_document_metadata(id) *)

Record State : Type := mk_State {
  self : GranolaFetcher;
  trace : list Event
}.

(** A method body: it reads and may write the state, and returns or
    raises. *)
Definition M (A : Type) : Type := State -> Result A * State.

Module FetcherMonad.
Definition ret {A} (a : A) : M A := fun st => (Ok a, st).
Definition bind {A B} (m : M A) (k : A -> M B) : M B :=
  fun st =>
    match m st with
    | (Ok a, st') => k a st'
    | (Raise e, st') => (Raise e, st')
    end.
Definition raise {A} (e : PyError) : M A := fun st => (Raise e, st).
Definition lift {A} (r : Result A) : M A := fun st => (r, st).
Definition emit (ev : Event) : M unit :=
  fun st => (Ok tt, {| self := self st; trace := (trace st ++ [ev])%list |}).
(** [self.client] *)
Definition self_client : M GranolaClient :=
  fun st => (Ok (client (self st)), st).
End FetcherMonad.
Import FetcherMonad.

Declare Scope fetcher_scope.
Delimit Scope fetcher_scope with fetcher.
Notation "x <- m ;; k" := (bind m (fun x => k))
  (at level 100, m at next level, right associativity) : fetcher_scope.
Notation "m ;; k" := (bind m (fun _ => k))
  (at level 100, right associativity) : fetcher_scope.

(** Number of items the document enumeration has delivered. *)
Definition is_fetched (ev : Event) : bool :=
  match ev with
  | Fetched _ => true
  | _ => false
  end.

Definition items_fetched (tr : list Event) : nat :=
  length (List.filter is_fetched tr).

(** ** Truthiness *)

(** [if token:] on an [Optional[str]] *)
Definition truthy_str (s : option string) : bool :=
  match s with
  | None => false
  | Some s => negb (String.eqb s "")
  end.

(** [if xs:] on an optional list *)
Definition truthy_list {A} (l : option (list A)) : bool :=
  match l with
  | None => false
  | Some [] => false
  | Some (_ :: _) => true
  end.

(** [x in xs] on a list of strings. *)
Definition str_in (x : string) (xs : list string) : bool :=
  existsb (String.eqb x) xs.

(** ** The module's code *)

Definition newline : string := String (Ascii.ascii_of_nat 10) EmptyString.

(** The separator ["\n\n"] *)
Definition blank_line : string := String.append newline newline.

(** [segment.text if hasattr(segment, "text") else str(segment)] *)
Definition segment_text (segment : TranscriptSegment) : string :=
  match text segment with
  | Some t => t
  | None => str_of segment
  end.

(** [GranolaFetcher._format_transcript_segments]: the loop appends each
    segment's text to [lines], which is then joined ([String.concat] is
    [str.join]). *)
Definition _format_transcript_segments (segments : list TranscriptSegment) : string :=
  match segments with
  | [] => ""
  | _ =>
      let lines :=
        fold_left (fun lines segment => (lines ++ [segment_text segment])%list) segments [] in
      String.concat blank_line lines
  end.

Section Fetcher.

(** [dateutil.parser.parse]: it returns a naive or an aware datetime,
    or raises. *)
Variable parse_datetime : string -> Result datetime.

(** The constructor [GranolaClient(token=...)], and [GranolaClient()]
    when it gets [None]. *)
Variable GranolaClient_new : option string -> Result GranolaClient.

(** [GranolaFetcher.__init__] *)
Definition GranolaFetcher_init (token : option string) : Result GranolaFetcher :=
  (if truthy_str token
   then c <- GranolaClient_new token ;; Ok {| client := c |}
   else c <- GranolaClient_new None ;; Ok {| client := c |})%result.

(** [[doc async for doc in gen]] *)
Fixpoint collect (gen : AsyncGen) : M (list Document) :=
  match gen with
  | GenStop => ret []
  | GenYield doc rest =>
      (emit (Fetched doc) ;;
       docs <- collect rest ;;
       ret (doc :: docs))%fetcher
  | GenRaise e => raise e
  end.

(** [[doc for doc in docs if parse_datetime(doc.updated_at) >= since]] *)
Fixpoint filter_since (since : datetime) (docs : list Document) : Result (list Document) :=
  match docs with
  | [] => Ok []
  | doc :: rest =>
      (t <- parse_datetime (updated_at doc) ;;
       keep <- datetime_ge t since ;;
       kept <- filter_since since rest ;;
       Ok (if keep : bool then doc :: kept else kept))%result
  end.

(** [GranolaFetcher.fetch_new_documents] *)
Definition fetch_new_documents
    (since : option datetime) (workspace_ids : option (list string)) : M (list Document) :=
  (c <- self_client ;;
   emit CallListAll ;;
   all_documents <- collect (list_all_documents c) ;;
   all_documents <-
     match since with
     | Some since => (* [if since:] holds for every datetime object *)
         let since :=
           match tzinfo since with
           | None => replace_tzinfo since timezone_utc
           | Some _ => since
           end in
         lift (filter_since since all_documents)
     | None => ret all_documents
     end ;;
   all_documents <-
     (if truthy_list workspace_ids
      then
        let ids := match workspace_ids with Some ids => ids | None => [] end in
        ret (List.filter (fun doc => str_in (workspace_id doc) ids) all_documents)
      else ret all_documents) ;;
   ret all_documents)%fetcher.

(** [GranolaFetcher.fetch_document_details] *)
Definition fetch_document_details (document : Document) : M DocumentDetails :=
  (let document_id := document_id document in
   c <- self_client ;;
   emit (CallTranscript document_id) ;;
   transcript_segments <- lift (get_document_transcript c document_id) ;;
   let transcript := _format_transcript_segments transcript_segments in
   c <- self_client ;;
   emit (CallMetadata document_id) ;;
   metadata_obj <- lift (get_document_metadata c document_id) ;;
   metadata <-
     match model_dump metadata_obj with
     | Some dumped => lift dumped
     | None => ret ∅
     end ;;
   ret {| document := document; transcript := transcript; metadata := metadata |})%fetcher.

(** The loop of [fetch_document_by_id]: [async for doc in gen], leaving
    at the first document with the identifier. *)
Fixpoint scan (id : string) (gen : AsyncGen) : M (option Document) :=
  match gen with
  | GenStop => ret None
  | GenYield doc rest =>
      (emit (Fetched doc) ;;
       if String.eqb (document_id doc) id then ret (Some doc) else scan id rest)%fetcher
  | GenRaise e => raise e
  end.

(** [GranolaFetcher.fetch_document_by_id] *)
Definition fetch_document_by_id (id : string) : M (option Document) :=
  (c <- self_client ;;
   emit CallListAll ;;
   scan id (list_all_documents c))%fetcher.

End Fetcher.

(** ** Specification-side notions *)

(** The absolute instant of a datetime, in microseconds; a naive value is
    read as UTC. *)
Definition instant (dt : datetime) : Z :=
  match tzinfo dt with
  | Some offset => wall dt - offset
  | None => wall dt
  end.

(** A datetime that denotes an absolute instant. *)
Definition aware (dt : datetime) : Prop := tzinfo dt <> None.

(** The state after more events. *)
Definition after (st : State) (evs : list Event) : State :=
  {| self := self st; trace := (trace st ++ evs)%list |}.

(** The documents the loop of [fetch_document_by_id] pulls out of a
    generator that yields [docs]: all up to and including the first one
    with the identifier. *)
Fixpoint scanned (id : string) (docs : list Document) : list Document :=
  match docs with
  | [] => []
  | doc :: rest =>
      doc :: (if String.eqb (document_id doc) id then [] else scanned id rest)
  end.

Definition has_id (id : string) (doc : Document) : bool :=
  String.eqb (document_id doc) id.

(** [since] as the filter uses it: a naive value is given the zone UTC. *)
Definition normalized (since : datetime) : datetime :=
  match tzinfo since with
  | None => replace_tzinfo since timezone_utc
  | Some _ => since
  end.

(** The workspace filter, applied when [workspace_ids] is a non-empty
    list. *)
Definition workspace_filter (workspace_ids : option (list string)) (docs : list Document)
  : list Document :=
  match workspace_ids with
  | Some (id :: ids) =>
      List.filter (fun doc => str_in (workspace_id doc) (id :: ids)) docs
  | _ => docs
  end.

(** [m] never assigns an attribute of [self]. *)
Definition keeps_self {A} (m : M A) : Prop :=
  forall st, self (snd (m st)) = self st.

Create HintDb frame.

Section Timestamps.

Variable parse_datetime : string -> Result datetime.

(** The test of the update-time filter, on instants. *)
Definition updated_since (since : datetime) (doc : Document) : bool :=
  match parse_datetime (updated_at doc) with
  | Ok t => instant since <=? instant t
  | Raise _ => false
  end.

(** The update timestamp of [doc] parses to an absolute time. *)
Definition parses_aware (doc : Document) : Prop :=
  exists t, parse_datetime (updated_at doc) = Ok t /\ aware t.

End Timestamps.

(** ** A small concrete world, for closed instances of the theorems *)

Module Demo.
Definition utc (w : Z) : datetime := {| wall := w; tzinfo := Some 0 |}.
Definition naive (w : Z) : datetime := {| wall := w; tzinfo := None |}.

(** A parser that knows four inputs. *)
Definition parse (s : string) : Result datetime :=
  if String.eqb s "2024-01-01T00:00:00Z" then Ok (utc 100)
  else if String.eqb s "2024-01-02T00:00:00Z" then Ok (utc 200)
  else if String.eqb s "2024-01-03T01:00:00+01:00" then Ok {| wall := 360; tzinfo := Some 60 |}
  else if String.eqb s "2024-01-04T00:00:00" then Ok (naive 400)
  else Raise (ParserError s).

Definition doc1 : Document :=
  {| document_id := "doc-1"; updated_at := "2024-01-01T00:00:00Z"; workspace_id := "ws-a" |}.
Definition doc2 : Document :=
  {| document_id := "doc-2"; updated_at := "2024-01-02T00:00:00Z"; workspace_id := "ws-b" |}.
Definition doc3 : Document :=
  {| document_id := "doc-3"; updated_at := "2024-01-03T01:00:00+01:00"; workspace_id := "ws-a" |}.
(** a second document with the identifier of [doc2] *)
Definition doc2' : Document :=
  {| document_id := "doc-2"; updated_at := "2024-01-03T01:00:00+01:00"; workspace_id := "ws-c" |}.
(** a document whose timestamp carries no zone *)
Definition doc_naive : Document :=
  {| document_id := "doc-4"; updated_at := "2024-01-04T00:00:00"; workspace_id := "ws-b" |}.
(** a document whose timestamp does not parse *)
Definition doc_bad : Document :=
  {| document_id := "doc-x"; updated_at := "yesterday"; workspace_id := "ws-a" |}.

Definition hello : TranscriptSegment := {| text := Some "Hello"; str_of := "<segment>" |}.
Definition world : TranscriptSegment := {| text := Some "World"; str_of := "<segment>" |}.

(** an object without a [text] attribute *)
Definition untyped : TranscriptSegment := {| text := None; str_of := "<raw chunk>" |}.

Definition dumped : gmap string PyValue :=
  <["title" := PyStr "Weekly sync"]> (<["attendees" := PyInt 3]> ∅).

Definition network_down : PyError := ClientError "connection reset".

(** A client over a fixed document list, with one transcript and one
    metadata object for every document. *)
Definition client_of
    (gen : AsyncGen)
    (segments : Result (list TranscriptSegment))
    (meta : Result MetadataObj) : GranolaClient :=
  {| list_all_documents := gen;
     get_document_transcript := fun _ => segments;
     get_document_metadata := fun _ => meta |}.

Definition state_of (c : GranolaClient) : State :=
  {| self := {| client := c |}; trace := [] |}.

Definition st_docs (docs : list Document) : State :=
  state_of (client_of (gen_of_list docs)
                      (Ok [hello; world])
                      (Ok {| model_dump := Some (Ok dumped) |})).
End Demo.

(** ** How the operations run *)

Section Runs.

Variable parse_datetime : string -> Result datetime.

Lemma after_nil st : after st [] = st.
Proof. destruct st as [f tr]. unfold after. simpl. by rewrite app_nil_r. Qed.

Lemma after_after st evs evs' : after (after st evs) evs' = after st (evs ++ evs')%list.
Proof. unfold after. simpl. by rewrite <- app_assoc. Qed.

Lemma gen_then_app docs docs' rest :
  gen_then (docs ++ docs') rest = gen_then docs (gen_then docs' rest).
Proof. induction docs as [|doc docs IH]; simpl; [reflexivity|by rewrite IH]. Qed.

Lemma items_fetched_app tr tr' :
  items_fetched (tr ++ tr') = (items_fetched tr + items_fetched tr')%nat.
Proof. unfold items_fetched. by rewrite List.filter_app, length_app. Qed.

Lemma items_fetched_delivered docs : items_fetched (map Fetched docs) = length docs.
Proof.
  unfold items_fetched. induction docs as [|doc docs IH]; simpl; [reflexivity|].
  by rewrite IH.
Qed.

Lemma emit_run ev st : emit ev st = (Ok tt, after st [ev]).
Proof. reflexivity. Qed.

(** Draining a generator that yields [docs] and then behaves as [rest]. *)
Lemma collect_gen_then docs rest st :
  collect (gen_then docs rest) st =
  match collect rest (after st (map Fetched docs)) with
  | (Ok docs', st') => (Ok (docs ++ docs')%list, st')
  | (Raise e, st') => (Raise e, st')
  end.
Proof.
  revert st. induction docs as [|doc docs IH]; intros st; simpl.
  - rewrite after_nil. by destruct (collect rest st) as [[?|?] ?].
  - unfold bind at 1. rewrite emit_run. unfold bind at 1. rewrite IH.
    rewrite after_after. simpl.
    by destruct (collect rest _) as [[?|?] ?].
Qed.

Lemma collect_gen_of_list docs st :
  collect (gen_of_list docs) st = (Ok docs, after st (map Fetched docs)).
Proof.
  unfold gen_of_list. rewrite collect_gen_then. simpl. by rewrite app_nil_r.
Qed.

Lemma collect_gen_raise docs e st :
  collect (gen_then docs (GenRaise e)) st = (Raise e, after st (map Fetched docs)).
Proof. by rewrite collect_gen_then. Qed.

Lemma scan_miss id docs rest st :
  Forall (fun doc => document_id doc <> id) docs ->
  scan id (gen_then docs rest) st = scan id rest (after st (map Fetched docs)).
Proof.
  intros Hmiss. revert st.
  induction Hmiss as [|doc docs Hne _ IH]; intros st; simpl.
  - by rewrite after_nil.
  - unfold bind. rewrite emit_run.
    apply String.eqb_neq in Hne. rewrite Hne, IH, after_after. reflexivity.
Qed.

Lemma scan_hit id doc rest st :
  document_id doc = id ->
  scan id (GenYield doc rest) st = (Ok (Some doc), after st [Fetched doc]).
Proof.
  intros Hid. simpl. unfold bind. rewrite emit_run.
  apply String.eqb_eq in Hid. by rewrite Hid.
Qed.

Lemma scan_gen_of_list id docs st :
  scan id (gen_of_list docs) st =
  (Ok (List.find (has_id id) docs), after st (map Fetched (scanned id docs))).
Proof.
  revert st. induction docs as [|doc docs IH]; intros st.
  - simpl. by rewrite after_nil.
  - unfold gen_of_list. simpl. unfold bind. rewrite emit_run. unfold has_id at 1.
    destruct (String.eqb (document_id doc) id) eqn:E.
    + reflexivity.
    + fold (gen_of_list docs). rewrite IH, after_after. reflexivity.
Qed.

Lemma datetime_ge_aware t since :
  aware t -> aware since -> datetime_ge t since = Ok (instant since <=? instant t).
Proof.
  unfold aware, datetime_ge, instant.
  destruct (tzinfo t), (tzinfo since); intros; congruence.
Qed.

Lemma filter_since_aware since docs :
  aware since ->
  Forall (parses_aware parse_datetime) docs ->
  filter_since parse_datetime since docs = Ok (List.filter (updated_since parse_datetime since) docs).
Proof.
  intros Hs Hdocs. induction Hdocs as [|doc docs [t [Ht Ha]] _ IH]; simpl.
  - reflexivity.
  - unfold updated_since at 1. rewrite Ht. simpl.
    rewrite (datetime_ge_aware _ _ Ha Hs). simpl. rewrite IH. reflexivity.
Qed.

(** The comprehension stops at the first timestamp that does not
    parse, with the parser's exception. *)
Lemma filter_since_raise since before doc rest e :
  aware since ->
  Forall (parses_aware parse_datetime) before ->
  parse_datetime (updated_at doc) = Raise e ->
  filter_since parse_datetime since (before ++ doc :: rest) = Raise e.
Proof.
  intros Hs Hbefore Hdoc. induction Hbefore as [|d ds [t [Ht Ha]] _ IH]; simpl.
  - by rewrite Hdoc.
  - rewrite Ht. simpl. rewrite (datetime_ge_aware _ _ Ha Hs). simpl. by rewrite IH.
Qed.

Lemma normalized_aware since : aware (normalized since).
Proof. unfold normalized, aware. by destruct (tzinfo since) eqn:E; simpl; rewrite ?E. Qed.

Lemma normalized_instant since : instant (normalized since) = instant since.
Proof.
  unfold normalized, instant, timezone_utc.
  destruct (tzinfo since) eqn:E; simpl; rewrite ?E; lia.
Qed.

Lemma updated_since_normalized since doc :
  updated_since parse_datetime (normalized since) doc = updated_since parse_datetime since doc.
Proof. unfold updated_since. by rewrite normalized_instant. Qed.

(** [fetch_new_documents] once the enumeration has delivered [docs]. *)
Lemma fetch_new_documents_listed since workspace_ids docs st :
  list_all_documents (client (self st)) = gen_of_list docs ->
  fetch_new_documents parse_datetime since workspace_ids st =
  (match since with
   | Some since =>
       match filter_since parse_datetime (normalized since) docs with
       | Ok kept => Ok (workspace_filter workspace_ids kept)
       | Raise e => Raise e
       end
   | None => Ok (workspace_filter workspace_ids docs)
   end,
   after st (CallListAll :: map Fetched docs)).
Proof.
  intros Hgen. unfold fetch_new_documents, bind, self_client, lift, ret.
  rewrite emit_run. simpl self. rewrite Hgen, collect_gen_of_list, after_after.
  simpl app. destruct since as [since|].
  - fold (normalized since).
    destruct (filter_since parse_datetime (normalized since) docs) as [kept|e]; [|done].
    by destruct workspace_ids as [[|id ids]|].
  - by destruct workspace_ids as [[|id ids]|].
Qed.

(** [fetch_new_documents] when the enumeration fails after [docs]. *)
Lemma fetch_new_documents_client_failure since workspace_ids docs e st :
  list_all_documents (client (self st)) = gen_then docs (GenRaise e) ->
  fetch_new_documents parse_datetime since workspace_ids st =
  (Raise e, after st (CallListAll :: map Fetched docs)).
Proof.
  intros Hgen. unfold fetch_new_documents, bind, self_client.
  rewrite emit_run. simpl self. by rewrite Hgen, collect_gen_raise, after_after.
Qed.

(** The loop of [_format_transcript_segments] collects the texts in
    order. *)
Lemma lines_of_segments segments (lines : list string) :
  fold_left (fun lines segment => (lines ++ [segment_text segment])%list) segments lines =
  (lines ++ map segment_text segments)%list.
Proof.
  revert lines. induction segments as [|segment segments IH]; intros lines; simpl.
  - by rewrite app_nil_r.
  - rewrite IH, <- app_assoc. reflexivity.
Qed.

Lemma format_transcript_segments_join segments :
  _format_transcript_segments segments =
  String.concat blank_line (map segment_text segments).
Proof.
  destruct segments as [|segment segments]; [reflexivity|].
  unfold _format_transcript_segments. by rewrite lines_of_segments.
Qed.

Lemma segment_text_present segments texts :
  map text segments = map Some texts -> map segment_text segments = texts.
Proof.
  revert texts. induction segments as [|segment segments IH]; intros [|t texts] H;
    simpl in *; try discriminate; [reflexivity|].
  injection H as Ht Hrest. unfold segment_text at 1. rewrite Ht.
  f_equal. by apply IH.
Qed.

(** Every way [fetch_document_details] can run. *)
Lemma fetch_document_details_run doc st :
  let c := client (self st) in
  let id := document_id doc in
  fetch_document_details doc st =
  match get_document_transcript c id with
  | Raise e => (Raise e, after st [CallTranscript id])
  | Ok segments =>
      match get_document_metadata c id with
      | Raise e => (Raise e, after st [CallTranscript id; CallMetadata id])
      | Ok metadata_obj =>
          (match model_dump metadata_obj with
           | Some (Ok dumped) =>
               Ok {| document := doc;
                     transcript := _format_transcript_segments segments;
                     metadata := dumped |}
           | Some (Raise e) => Raise e
           | None =>
               Ok {| document := doc;
                     transcript := _format_transcript_segments segments;
                     metadata := ∅ |}
           end,
           after st [CallTranscript id; CallMetadata id])
      end
  end.
Proof.
  intros c id. unfold fetch_document_details, bind, self_client, lift, ret.
  rewrite emit_run. simpl self. fold c id.
  destruct (get_document_transcript c id) as [segments|e]; [|reflexivity].
  rewrite emit_run, after_after. simpl self. simpl app. fold c.
  destruct (get_document_metadata c id) as [[[[dumped|e]|]]|e]; reflexivity.
Qed.

Lemma fetch_document_by_id_run id st :
  fetch_document_by_id id st =
  scan id (list_all_documents (client (self st))) (after st [CallListAll]).
Proof. reflexivity. Qed.

(** *** Frame: what a method body leaves alone *)

Lemma keeps_self_ret {A} (a : A) : keeps_self (ret a).
Proof. by intros st. Qed.

Lemma keeps_self_raise {A} e : keeps_self (@raise A e).
Proof. by intros st. Qed.

Lemma keeps_self_lift {A} (r : Result A) : keeps_self (lift r).
Proof. by intros st. Qed.

Lemma keeps_self_emit ev : keeps_self (emit ev).
Proof. by intros st. Qed.

Lemma keeps_self_self_client : keeps_self self_client.
Proof. by intros st. Qed.

Lemma keeps_self_bind {A B} (m : M A) (k : A -> M B) :
  keeps_self m -> (forall a, keeps_self (k a)) -> keeps_self (bind m k).
Proof.
  intros Hm Hk st. unfold bind. specialize (Hm st).
  destruct (m st) as [[a|e] st']; simpl in *; [|done].
  by rewrite Hk.
Qed.

Lemma keeps_self_if {A} (b : bool) (m1 m2 : M A) :
  keeps_self m1 -> keeps_self m2 -> keeps_self (if b then m1 else m2).
Proof. by destruct b. Qed.

#[local] Hint Resolve keeps_self_ret keeps_self_raise keeps_self_lift keeps_self_emit
  keeps_self_self_client keeps_self_if : frame.
#[local] Hint Extern 2 (keeps_self (bind _ _)) =>
  apply keeps_self_bind; [|intros ?] : frame.

Lemma keeps_self_collect gen : keeps_self (collect gen).
Proof. induction gen; simpl; auto with frame. Qed.

Lemma keeps_self_scan id gen : keeps_self (scan id gen).
Proof. induction gen; simpl; auto with frame. Qed.

#[local] Hint Resolve keeps_self_collect keeps_self_scan : frame.

Lemma keeps_self_fetch_new_documents since workspace_ids :
  keeps_self (fetch_new_documents parse_datetime since workspace_ids).
Proof.
  unfold fetch_new_documents. destruct since; auto 10 with frame.
Qed.

Lemma keeps_self_fetch_document_details doc : keeps_self (fetch_document_details doc).
Proof.
  unfold fetch_document_details.
  repeat (apply keeps_self_bind; [auto with frame; fail|intros ?]).
  apply keeps_self_bind; [|auto with frame].
  destruct (model_dump _); auto with frame.
Qed.

Lemma keeps_self_fetch_document_by_id id : keeps_self (fetch_document_by_id id).
Proof. unfold fetch_document_by_id. auto with frame. Qed.

End Runs.

(** ** The properties of the specification *)

Section Properties.

Variable parse_datetime : string -> Result datetime.
Variable GranolaClient_new : option string -> Result GranolaClient.

Lemma filter_sublist {A} (f : A -> bool) (l : list A) : sublist (List.filter f l) l.
Proof.
  induction l as [|x l IH]; simpl; [constructor|].
  destruct (f x); by constructor.
Qed.

Lemma str_in_In x xs : str_in x xs = true <-> In x xs.
Proof.
  unfold str_in. rewrite existsb_exists. split.
  - intros [y [Hy Heq]]. apply String.eqb_eq in Heq. by subst.
  - intros Hx. exists x. split; [done|]. apply String.eqb_refl.
Qed.

Lemma updated_since_true since doc :
  updated_since parse_datetime since doc = true <->
  exists t, parse_datetime (updated_at doc) = Ok t /\ instant since <= instant t.
Proof.
  unfold updated_since. destruct (parse_datetime (updated_at doc)) as [t|e]; split.
  - intros H. exists t. split; [done|]. by apply Z.leb_le.
  - intros [t' [[= <-] H]]. by apply Z.leb_le.
  - discriminate.
  - intros [t' [[=] _]].
Qed.

(** C1. Given a threshold [since], [fetch_new_documents] returns exactly
    the documents of the client's list whose parsed update timestamp is
    at or after [since], in the order of the list.  (The timestamps are
    absolute times, as the client's interface has them.) *)
Theorem fetch_new_documents_since since docs st :
  list_all_documents (client (self st)) = gen_of_list docs ->
  Forall (parses_aware parse_datetime) docs ->
  exists kept,
    fst (fetch_new_documents parse_datetime (Some since) None st) = Ok kept /\
    kept = List.filter (updated_since parse_datetime since) docs /\
    (forall doc,
        In doc kept <->
        In doc docs /\
        exists t, parse_datetime (updated_at doc) = Ok t /\ instant since <= instant t) /\
    sublist kept docs.
Proof.
  intros Hgen Hdocs.
  exists (List.filter (updated_since parse_datetime since) docs).
  split; [|split; [reflexivity|split]].
  - rewrite (fetch_new_documents_listed _ _ _ _ _ Hgen). simpl.
    rewrite (filter_since_aware _ _ _ (normalized_aware since) Hdocs). simpl.
    f_equal. apply filter_ext. intros doc. apply updated_since_normalized.
  - intros doc. rewrite filter_In, updated_since_true. reflexivity.
  - apply filter_sublist.
Qed.

(** C2, as the code has it.  Given a non-empty list [W] of workspace
    identifiers, [fetch_new_documents] returns exactly the documents of
    the client's list whose workspace identifier is in [W], in order; an
    empty [W] selects nothing and every document is returned; and with a
    threshold as well, the result is the documents that pass both
    tests, the update-time test being applied first. *)
Theorem fetch_new_documents_workspaces since w ws docs st :
  list_all_documents (client (self st)) = gen_of_list docs ->
  let W := w :: ws in
  let in_W := fun doc => str_in (workspace_id doc) W in
  (exists kept,
      fst (fetch_new_documents parse_datetime None (Some W) st) = Ok kept /\
      kept = List.filter in_W docs /\
      (forall doc, In doc kept <-> In doc docs /\ In (workspace_id doc) W) /\
      sublist kept docs) /\
  fst (fetch_new_documents parse_datetime None (Some []) st) = Ok docs /\
  (Forall (parses_aware parse_datetime) docs ->
   exists kept,
     fst (fetch_new_documents parse_datetime (Some since) (Some W) st) = Ok kept /\
     kept = List.filter in_W (List.filter (updated_since parse_datetime since) docs) /\
     (forall doc,
         In doc kept <->
         In doc docs /\
         (exists t, parse_datetime (updated_at doc) = Ok t /\ instant since <= instant t) /\
         In (workspace_id doc) W)).
Proof.
  intros Hgen W in_W. split; [|split].
  - exists (List.filter in_W docs). split; [|split; [reflexivity|split]].
    + by rewrite (fetch_new_documents_listed _ _ _ _ _ Hgen).
    + intros doc. rewrite filter_In. unfold in_W. by rewrite str_in_In.
    + apply filter_sublist.
  - by rewrite (fetch_new_documents_listed _ _ _ _ _ Hgen).
  - intros Hdocs.
    exists (List.filter in_W (List.filter (updated_since parse_datetime since) docs)).
    split; [|split; [reflexivity|]].
    + rewrite (fetch_new_documents_listed _ _ _ _ _ Hgen). simpl.
      rewrite (filter_since_aware _ _ _ (normalized_aware since) Hdocs). simpl.
      do 2 f_equal. apply filter_ext. intros doc. apply updated_since_normalized.
    + intros doc. rewrite !filter_In, updated_since_true. unfold in_W.
      rewrite str_in_In. tauto.
Qed.

(** C3. The transcript of [fetch_document_details] is the segments'
    texts joined with a blank line: nothing for no segment, and
    "Hello", blank line, "World" for the segments "Hello" and "World". *)
Theorem transcript_joins_segment_texts doc st segments texts metadata_obj :
  get_document_transcript (client (self st)) (document_id doc) = Ok segments ->
  map text segments = map Some texts ->
  get_document_metadata (client (self st)) (document_id doc) = Ok metadata_obj ->
  (forall e, model_dump metadata_obj <> Some (Raise e)) ->
  (exists details,
      fst (fetch_document_details doc st) = Ok details /\
      transcript details = String.concat blank_line texts) /\
  _format_transcript_segments segments = String.concat blank_line texts /\
  _format_transcript_segments [] = "" /\
  (forall s1 s2,
      _format_transcript_segments
        [ {| text := Some "Hello"; str_of := s1 |};
          {| text := Some "World"; str_of := s2 |} ] =
      String.append "Hello" (String.append newline (String.append newline "World"))).
Proof.
  intros Hsegments Htexts Hmeta Hdump.
  assert (Hjoin : _format_transcript_segments segments = String.concat blank_line texts).
  { rewrite format_transcript_segments_join. f_equal. by apply segment_text_present. }
  split; [|split; [exact Hjoin|split; [reflexivity|reflexivity]]].
  rewrite fetch_document_details_run. simpl. rewrite Hsegments, Hmeta.
  destruct (model_dump metadata_obj) as [[dumped|e]|] eqn:E; simpl.
  - eexists. split; [reflexivity|]. exact Hjoin.
  - by destruct (Hdump e).
  - eexists. split; [reflexivity|]. exact Hjoin.
Qed.

(** C4. [fetch_document_by_id] returns the first document of the
    enumeration that has the identifier, and [None], not an exception,
    when the enumeration ends without one. *)
Theorem fetch_document_by_id_first_match id docs st :
  list_all_documents (client (self st)) = gen_of_list docs ->
  fst (fetch_document_by_id id st) = Ok (List.find (has_id id) docs) /\
  (forall before doc rest,
      docs = (before ++ doc :: rest)%list ->
      Forall (fun d => document_id d <> id) before ->
      document_id doc = id ->
      fst (fetch_document_by_id id st) = Ok (Some doc)) /\
  (Forall (fun d => document_id d <> id) docs ->
   fst (fetch_document_by_id id st) = Ok None).
Proof.
  intros Hgen. rewrite fetch_document_by_id_run, Hgen. split; [|split].
  - by rewrite scan_gen_of_list.
  - intros before doc rest -> Hbefore Hid.
    unfold gen_of_list. rewrite gen_then_app, (scan_miss _ _ _ _ Hbefore).
    simpl gen_then. by rewrite (scan_hit _ _ _ _ Hid).
  - intros Hmiss. unfold gen_of_list. by rewrite (scan_miss _ _ _ _ Hmiss).
Qed.

(** C5. A metadata object without [model_dump] gives the empty
    metadata mapping, and [fetch_document_details] returns; with
    [model_dump], the mapping it exports is the metadata. *)
Theorem metadata_defaults_to_empty doc st segments metadata_obj :
  get_document_transcript (client (self st)) (document_id doc) = Ok segments ->
  get_document_metadata (client (self st)) (document_id doc) = Ok metadata_obj ->
  (model_dump metadata_obj = None ->
   fst (fetch_document_details doc st) =
   Ok {| document := doc;
         transcript := _format_transcript_segments segments;
         metadata := ∅ |}) /\
  (forall dumped,
      model_dump metadata_obj = Some (Ok dumped) ->
      fst (fetch_document_details doc st) =
      Ok {| document := doc;
            transcript := _format_transcript_segments segments;
            metadata := dumped |}).
Proof.
  intros Hsegments Hmeta.
  split; [intros Hdump|intros dumped Hdump];
    rewrite fetch_document_details_run; simpl;
    by rewrite Hsegments, Hmeta, Hdump.
Qed.

(** C6. A naive [since] filters as the aware value with the same
    wall-clock reading in UTC does: same result, same effects. *)
Theorem naive_since_filters_as_utc (since : datetime) workspace_ids st :
  tzinfo since = None ->
  fetch_new_documents parse_datetime (Some since) workspace_ids st =
  fetch_new_documents parse_datetime
    (Some (replace_tzinfo since timezone_utc)) workspace_ids st.
Proof.
  intros Hnaive. unfold fetch_new_documents. by rewrite Hnaive.
Qed.

(** C7. An empty [workspace_ids] list skips the workspace filter: the
    call is the call without [workspace_ids], and it returns the whole
    list, filtered by [since] when that is given, not the empty list. *)
Theorem empty_workspace_ids_skips_filter since st :
  fetch_new_documents parse_datetime since (Some []) st =
  fetch_new_documents parse_datetime since None st /\
  (forall docs,
      list_all_documents (client (self st)) = gen_of_list docs ->
      fst (fetch_new_documents parse_datetime None (Some []) st) = Ok docs /\
      (forall threshold,
          Forall (parses_aware parse_datetime) docs ->
          fst (fetch_new_documents parse_datetime (Some threshold) (Some []) st) =
          Ok (List.filter (updated_since parse_datetime threshold) docs))).
Proof.
  split; [reflexivity|]. intros docs Hgen. split.
  - by rewrite (fetch_new_documents_listed _ _ _ _ _ Hgen).
  - intros threshold Hdocs.
    rewrite (fetch_new_documents_listed _ _ _ _ _ Hgen). simpl.
    rewrite (filter_since_aware _ _ _ (normalized_aware threshold) Hdocs). simpl.
    f_equal. apply filter_ext. intros doc. apply updated_since_normalized.
Qed.

(** C8. When the first document with the identifier is the one at
    position [k] of the enumeration, [fetch_document_by_id] pulls exactly
    [k + 1] items: those up to and including that document, and nothing
    of what the generator would produce after it. *)
Theorem fetch_document_by_id_stops_at_match id before doc later st :
  list_all_documents (client (self st)) = gen_then (before ++ [doc]) later ->
  Forall (fun d => document_id d <> id) before ->
  document_id doc = id ->
  let k := length before in
  let st' := snd (fetch_document_by_id id st) in
  fst (fetch_document_by_id id st) = Ok (Some doc) /\
  trace st' = (trace st ++ CallListAll :: map Fetched (before ++ [doc]))%list /\
  items_fetched (trace st') = (items_fetched (trace st) + (k + 1))%nat.
Proof.
  intros Hgen Hbefore Hid k st'. subst st'.
  rewrite fetch_document_by_id_run, Hgen, gen_then_app.
  rewrite (scan_miss _ _ _ _ Hbefore). simpl gen_then.
  rewrite (scan_hit _ _ _ _ Hid), !after_after. simpl.
  split; [reflexivity|]. split; [by rewrite map_app|].
  rewrite items_fetched_app. f_equal.
  change (items_fetched (map Fetched before ++ [Fetched doc]) = (k + 1)%nat).
  rewrite items_fetched_app, items_fetched_delivered. reflexivity.
Qed.

(** C9. An exception [e] raised by the client, or by the parser on a
    malformed update timestamp, leaves each operation as [e] itself: the
    operation raises [e], and its trace shows the calls made up to the
    failure and nothing after it, so no call is repeated and nothing is
    substituted for the failed result. *)
Theorem failures_propagate_unchanged e :
  (forall since workspace_ids docs st,
      list_all_documents (client (self st)) = gen_then docs (GenRaise e) ->
      fetch_new_documents parse_datetime since workspace_ids st =
      (Raise e, after st (CallListAll :: map Fetched docs))) /\
  (forall since workspace_ids before doc rest st,
      list_all_documents (client (self st)) = gen_of_list (before ++ doc :: rest) ->
      Forall (parses_aware parse_datetime) before ->
      parse_datetime (updated_at doc) = Raise e ->
      fetch_new_documents parse_datetime (Some since) workspace_ids st =
      (Raise e, after st (CallListAll :: map Fetched (before ++ doc :: rest)))) /\
  (forall doc st,
      get_document_transcript (client (self st)) (document_id doc) = Raise e ->
      fetch_document_details doc st =
      (Raise e, after st [CallTranscript (document_id doc)])) /\
  (forall doc segments st,
      get_document_transcript (client (self st)) (document_id doc) = Ok segments ->
      get_document_metadata (client (self st)) (document_id doc) = Raise e ->
      fetch_document_details doc st =
      (Raise e, after st [CallTranscript (document_id doc); CallMetadata (document_id doc)])) /\
  (forall doc segments metadata_obj st,
      get_document_transcript (client (self st)) (document_id doc) = Ok segments ->
      get_document_metadata (client (self st)) (document_id doc) = Ok metadata_obj ->
      model_dump metadata_obj = Some (Raise e) ->
      fetch_document_details doc st =
      (Raise e, after st [CallTranscript (document_id doc); CallMetadata (document_id doc)])) /\
  (forall id docs st,
      list_all_documents (client (self st)) = gen_then docs (GenRaise e) ->
      Forall (fun d => document_id d <> id) docs ->
      fetch_document_by_id id st =
      (Raise e, after st (CallListAll :: map Fetched docs))).
Proof.
  repeat split.
  - intros since workspace_ids docs st Hgen.
    by apply fetch_new_documents_client_failure.
  - intros since workspace_ids before doc rest st Hgen Hbefore Hdoc.
    rewrite (fetch_new_documents_listed _ _ _ _ _ Hgen).
    by rewrite (filter_since_raise _ _ _ _ _ _ (normalized_aware since) Hbefore Hdoc).
  - intros doc st Hsegments.
    rewrite fetch_document_details_run. simpl. by rewrite Hsegments.
  - intros doc segments st Hsegments Hmeta.
    rewrite fetch_document_details_run. simpl. by rewrite Hsegments, Hmeta.
  - intros doc segments metadata_obj st Hsegments Hmeta Hdump.
    rewrite fetch_document_details_run. simpl. by rewrite Hsegments, Hmeta, Hdump.
  - intros id docs st Hgen Hmiss.
    rewrite fetch_document_by_id_run, Hgen, (scan_miss _ _ _ _ Hmiss).
    simpl. by rewrite after_after.
Qed.

(** C10. A fetcher is its client handle and nothing else; the
    constructor sets the handle to the client it builds; and no
    operation, whether it returns or raises, changes the fetcher. *)
Theorem fetcher_state_is_the_client_handle :
  (forall f1 f2 : GranolaFetcher, client f1 = client f2 -> f1 = f2) /\
  (forall token,
      GranolaFetcher_init GranolaClient_new token =
      match GranolaClient_new (if truthy_str token then token else None) with
      | Ok c => Ok {| client := c |}
      | Raise e => Raise e
      end) /\
  (forall since workspace_ids st,
      self (snd (fetch_new_documents parse_datetime since workspace_ids st)) = self st) /\
  (forall doc st, self (snd (fetch_document_details doc st)) = self st) /\
  (forall id st, self (snd (fetch_document_by_id id st)) = self st).
Proof.
  repeat split.
  - intros [c1] [c2]. simpl. by intros ->.
  - intros token. unfold GranolaFetcher_init. by destruct (truthy_str token).
  - intros since workspace_ids. apply keeps_self_fetch_new_documents.
  - intros doc. apply keeps_self_fetch_document_details.
  - intros id. apply keeps_self_fetch_document_by_id.
Qed.

End Properties.

(** ** The properties on the concrete world *)

Lemma demo_timestamps_parse :
  Forall (parses_aware Demo.parse) [Demo.doc1; Demo.doc2; Demo.doc3].
Proof.
  repeat constructor; (eexists; split; [reflexivity|discriminate]).
Qed.

(** Of three documents updated at 100, 200 and 300, the threshold 250
    keeps the third. *)
Lemma fetch_new_documents_since_witness :
  let docs := [Demo.doc1; Demo.doc2; Demo.doc3] in
  let st := Demo.st_docs docs in
  list_all_documents (client (self st)) = gen_of_list docs /\
  Forall (parses_aware Demo.parse) docs /\
  fst (fetch_new_documents Demo.parse (Some (Demo.utc 250)) None st) = Ok [Demo.doc3].
Proof.
  intros docs st.
  assert (Hgen : list_all_documents (client (self st)) = gen_of_list docs) by reflexivity.
  split; [exact Hgen|]. split; [exact demo_timestamps_parse|].
  destruct (fetch_new_documents_since Demo.parse (Demo.utc 250) docs st
              Hgen demo_timestamps_parse) as [kept [Hrun [Hkept _]]].
  rewrite Hrun, Hkept. reflexivity.
Defined.

(** With the empty workspace list the documents that come back are not
    those with a workspace in the list: both documents come back. *)
Lemma empty_workspace_list_returns_documents :
  let docs := [Demo.doc1; Demo.doc2] in
  let W : list string := [] in
  exists kept,
    fst (fetch_new_documents Demo.parse None (Some W) (Demo.st_docs docs)) = Ok kept /\
    ~ (forall doc, In doc kept <-> In doc docs /\ In (workspace_id doc) W).
Proof.
  intros docs W. exists docs. split; [reflexivity|].
  intros H. destruct (proj1 (H Demo.doc1)) as [_ []]. by left.
Qed.

Lemma fetch_new_documents_workspaces_witness :
  let docs := [Demo.doc1; Demo.doc2; Demo.doc3] in
  let st := Demo.st_docs docs in
  list_all_documents (client (self st)) = gen_of_list docs /\
  Forall (parses_aware Demo.parse) docs /\
  fst (fetch_new_documents Demo.parse None (Some ["ws-a"]) st) = Ok [Demo.doc1; Demo.doc3] /\
  fst (fetch_new_documents Demo.parse None (Some []) st) = Ok docs /\
  fst (fetch_new_documents Demo.parse (Some (Demo.utc 150)) (Some ["ws-a"]) st) =
  Ok [Demo.doc3].
Proof.
  intros docs st.
  assert (Hgen : list_all_documents (client (self st)) = gen_of_list docs) by reflexivity.
  split; [exact Hgen|]. split; [exact demo_timestamps_parse|].
  destruct (fetch_new_documents_workspaces Demo.parse (Demo.utc 150) "ws-a" [] docs st Hgen)
    as [[kept [Hrun [Hkept _]]] [Hempty Hboth]].
  destruct (Hboth demo_timestamps_parse) as [kept' [Hrun' [Hkept' _]]].
  split; [|split; [exact Hempty|]].
  - rewrite Hrun, Hkept. reflexivity.
  - rewrite Hrun', Hkept'. reflexivity.
Defined.

Lemma transcript_joins_segment_texts_witness :
  let st := Demo.st_docs [Demo.doc1] in
  let c := client (self st) in
  get_document_transcript c "doc-1" = Ok [Demo.hello; Demo.world] /\
  map text [Demo.hello; Demo.world] = map Some ["Hello"; "World"] /\
  get_document_metadata c "doc-1" = Ok {| model_dump := Some (Ok Demo.dumped) |} /\
  exists details,
    fst (fetch_document_details Demo.doc1 st) = Ok details /\
    transcript details =
    String.append "Hello" (String.append newline (String.append newline "World")).
Proof.
  intros st c. repeat (split; [reflexivity|]).
  destruct (transcript_joins_segment_texts Demo.doc1 st
              [Demo.hello; Demo.world] ["Hello"; "World"]
              {| model_dump := Some (Ok Demo.dumped) |}
              eq_refl eq_refl eq_refl)
    as [[details [Hrun Htranscript]] _].
  - intros e. discriminate.
  - exists details. split; [exact Hrun|]. rewrite Htranscript. reflexivity.
Defined.

(** Two documents have the identifier: the first of them is returned.
    No document has the identifier: [None] is. *)
Lemma fetch_document_by_id_first_match_witness :
  let docs := [Demo.doc1; Demo.doc2; Demo.doc2'] in
  let st := Demo.st_docs docs in
  list_all_documents (client (self st)) = gen_of_list docs /\
  fst (fetch_document_by_id "doc-2" st) = Ok (Some Demo.doc2) /\
  fst (fetch_document_by_id "doc-9" st) = Ok None.
Proof.
  intros docs st.
  assert (Hgen : list_all_documents (client (self st)) = gen_of_list docs) by reflexivity.
  split; [exact Hgen|]. split.
  - destruct (fetch_document_by_id_first_match "doc-2" docs st Hgen) as [_ [Hfirst _]].
    apply (Hfirst [Demo.doc1] Demo.doc2 [Demo.doc2']); [reflexivity| |reflexivity].
    repeat constructor. discriminate.
  - destruct (fetch_document_by_id_first_match "doc-9" docs st Hgen) as [_ [_ Hnone]].
    apply Hnone. repeat constructor; discriminate.
Defined.

Lemma metadata_defaults_to_empty_witness :
  let bare := {| model_dump := None |} in
  let full := {| model_dump := Some (Ok Demo.dumped) |} in
  let gen := gen_of_list [Demo.doc1] in
  let st_bare := Demo.state_of (Demo.client_of gen (Ok [Demo.hello]) (Ok bare)) in
  let st_full := Demo.state_of (Demo.client_of gen (Ok [Demo.hello]) (Ok full)) in
  fst (fetch_document_details Demo.doc1 st_bare) =
  Ok {| document := Demo.doc1; transcript := "Hello"; metadata := ∅ |} /\
  fst (fetch_document_details Demo.doc1 st_full) =
  Ok {| document := Demo.doc1; transcript := "Hello"; metadata := Demo.dumped |}.
Proof.
  intros bare full gen st_bare st_full. split.
  - destruct (metadata_defaults_to_empty Demo.doc1 st_bare [Demo.hello] bare
                eq_refl eq_refl) as [Hnone _].
    exact (Hnone eq_refl).
  - destruct (metadata_defaults_to_empty Demo.doc1 st_full [Demo.hello] full
                eq_refl eq_refl) as [_ Hdump].
    exact (Hdump Demo.dumped eq_refl).
Defined.

Lemma naive_since_filters_as_utc_witness :
  let st := Demo.st_docs [Demo.doc1; Demo.doc2; Demo.doc3] in
  tzinfo (Demo.naive 150) = None /\
  fetch_new_documents Demo.parse (Some (Demo.naive 150)) None st =
  fetch_new_documents Demo.parse (Some (Demo.utc 150)) None st.
Proof.
  intros st. split; [reflexivity|].
  exact (naive_since_filters_as_utc Demo.parse (Demo.naive 150) None st eq_refl).
Defined.

Lemma empty_workspace_ids_skips_filter_witness :
  let docs := [Demo.doc1; Demo.doc2; Demo.doc3] in
  let st := Demo.st_docs docs in
  fst (fetch_new_documents Demo.parse None (Some []) st) = Ok docs /\
  fst (fetch_new_documents Demo.parse (Some (Demo.utc 150)) (Some []) st) =
  Ok [Demo.doc2; Demo.doc3].
Proof.
  intros docs st.
  destruct (empty_workspace_ids_skips_filter Demo.parse None st) as [_ Hdocs].
  destruct (Hdocs docs eq_refl) as [Hall Hsince].
  split; [exact Hall|].
  rewrite (Hsince (Demo.utc 150) demo_timestamps_parse). reflexivity.
Defined.

(** The match is at position 1; after it the generator would yield
    another match and then fail.  Two items are pulled. *)
Lemma fetch_document_by_id_stops_at_match_witness :
  let later := GenYield Demo.doc2' (GenRaise Demo.network_down) in
  let gen := gen_then ([Demo.doc1] ++ [Demo.doc2]) later in
  let st := Demo.state_of (Demo.client_of gen (Ok []) (Ok {| model_dump := None |})) in
  fst (fetch_document_by_id "doc-2" st) = Ok (Some Demo.doc2) /\
  trace (snd (fetch_document_by_id "doc-2" st)) =
  [CallListAll; Fetched Demo.doc1; Fetched Demo.doc2] /\
  items_fetched (trace (snd (fetch_document_by_id "doc-2" st))) = 2%nat.
Proof.
  intros later gen st.
  apply (fetch_document_by_id_stops_at_match "doc-2" [Demo.doc1] Demo.doc2 later st).
  - reflexivity.
  - repeat constructor. discriminate.
  - reflexivity.
Defined.

(** An update timestamp without a zone parses to a naive datetime, and
    comparing it with the (always aware) threshold raises. *)
Example naive_update_timestamp_raises :
  fst (fetch_new_documents Demo.parse (Some (Demo.utc 150)) None
         (Demo.st_docs [Demo.doc1; Demo.doc_naive])) =
  Raise (TypeError "can't compare offset-naive and offset-aware datetimes").
Proof. reflexivity. Qed.

(** Without a threshold the timestamps are not parsed at all. *)
Example no_threshold_no_parsing :
  fst (fetch_new_documents Demo.parse None None
         (Demo.st_docs [Demo.doc_bad; Demo.doc_naive])) =
  Ok [Demo.doc_bad; Demo.doc_naive].
Proof. reflexivity. Qed.

Lemma failures_propagate_unchanged_witness :
  let down := Demo.network_down in
  let bare := Ok {| model_dump := None |} in
  let st_gen :=
    Demo.state_of (Demo.client_of (gen_then [Demo.doc1] (GenRaise down)) (Ok []) bare) in
  let st_bad := Demo.st_docs [Demo.doc1; Demo.doc_bad; Demo.doc2] in
  let st_transcript :=
    Demo.state_of (Demo.client_of GenStop (Raise down) bare) in
  let st_metadata :=
    Demo.state_of (Demo.client_of GenStop (Ok [Demo.hello]) (Raise down)) in
  let broken := {| model_dump := Some (Raise down) |} in
  let st_dump :=
    Demo.state_of (Demo.client_of GenStop (Ok [Demo.hello]) (Ok broken)) in
  fetch_new_documents Demo.parse None None st_gen =
  (Raise down, after st_gen [CallListAll; Fetched Demo.doc1]) /\
  fst (fetch_new_documents Demo.parse (Some (Demo.utc 150)) None st_bad) =
  Raise (ParserError "yesterday") /\
  fetch_document_details Demo.doc1 st_transcript =
  (Raise down, after st_transcript [CallTranscript "doc-1"]) /\
  fetch_document_details Demo.doc1 st_metadata =
  (Raise down, after st_metadata [CallTranscript "doc-1"; CallMetadata "doc-1"]) /\
  fetch_document_details Demo.doc1 st_dump =
  (Raise down, after st_dump [CallTranscript "doc-1"; CallMetadata "doc-1"]) /\
  fetch_document_by_id "doc-2" st_gen =
  (Raise down, after st_gen [CallListAll; Fetched Demo.doc1]).
Proof.
  intros down bare st_gen st_bad st_transcript st_metadata broken st_dump.
  destruct (failures_propagate_unchanged Demo.parse down)
    as [Hlist [_ [Htranscript [Hmetadata [Hdump Hscan]]]]].
  destruct (failures_propagate_unchanged Demo.parse (ParserError "yesterday"))
    as [_ [Hparse _]].
  split; [|split; [|split; [|split; [|split]]]].
  - apply (Hlist None None [Demo.doc1] st_gen). reflexivity.
  - rewrite (Hparse (Demo.utc 150) None [Demo.doc1] Demo.doc_bad [Demo.doc2] st_bad).
    + reflexivity.
    + reflexivity.
    + repeat constructor. eexists. split; [reflexivity|discriminate].
    + reflexivity.
  - apply (Htranscript Demo.doc1 st_transcript). reflexivity.
  - apply (Hmetadata Demo.doc1 [Demo.hello] st_metadata); reflexivity.
  - apply (Hdump Demo.doc1 [Demo.hello] broken st_dump); reflexivity.
  - apply (Hscan "doc-2" [Demo.doc1] st_gen); [reflexivity|].
    repeat constructor. discriminate.
Defined.

Lemma fetcher_state_is_the_client_handle_witness :
  let c := Demo.client_of GenStop (Ok []) (Ok {| model_dump := None |}) in
  let new_client := fun _ : option string => Ok c in
  let st := Demo.st_docs [Demo.doc1; Demo.doc2] in
  GranolaFetcher_init new_client (Some "secret") = Ok {| client := c |} /\
  self (snd (fetch_new_documents Demo.parse (Some (Demo.utc 150)) (Some ["ws-a"]) st)) =
  self st /\
  self (snd (fetch_document_details Demo.doc1 st)) = self st /\
  self (snd (fetch_document_by_id "doc-2" st)) = self st /\
  {| client := c |} = {| client := c |}.
Proof.
  intros c new_client st.
  destruct (fetcher_state_is_the_client_handle Demo.parse new_client)
    as [Hone [Hinit [Hnew [Hdetails Hscan]]]].
  split; [|split; [|split; [|split]]].
  - rewrite Hinit. reflexivity.
  - apply Hnew.
  - apply Hdetails.
  - apply Hscan.
  - apply Hone. reflexivity.
Defined.

(** ** Further properties of the operations *)

Section Listing.

Variable parse_datetime : string -> Result datetime.

(** [fetch_new_documents] on any generator: first the enumeration is
    drained, then the list is filtered. *)
Lemma fetch_new_documents_run since workspace_ids st :
  fetch_new_documents parse_datetime since workspace_ids st =
  match collect (list_all_documents (client (self st))) (after st [CallListAll]) with
  | (Ok docs, st') =>
      (match since with
       | Some since =>
           match filter_since parse_datetime (normalized since) docs with
           | Ok kept => Ok (workspace_filter workspace_ids kept)
           | Raise e => Raise e
           end
       | None => Ok (workspace_filter workspace_ids docs)
       end, st')
  | (Raise e, st') => (Raise e, st')
  end.
Proof.
  unfold fetch_new_documents, bind, self_client, lift, ret.
  rewrite emit_run. simpl self.
  destruct (collect _ _) as [[docs|e] st']; [|reflexivity].
  destruct since as [since|].
  - fold (normalized since).
    destruct (filter_since parse_datetime (normalized since) docs) as [kept|e]; [|done].
    by destruct workspace_ids as [[|id ids]|].
  - by destruct workspace_ids as [[|id ids]|].
Qed.

Lemma filter_since_sublist since docs kept :
  filter_since parse_datetime since docs = Ok kept -> sublist kept docs.
Proof.
  revert kept. induction docs as [|doc docs IH]; intros kept; simpl.
  - intros [= <-]. constructor.
  - destruct (parse_datetime (updated_at doc)) as [t|e]; simpl; [|discriminate].
    destruct (datetime_ge t since) as [keep|e]; simpl; [|discriminate].
    destruct (filter_since parse_datetime since docs) as [kept'|e]; simpl; [|discriminate].
    intros [= <-]. destruct keep; constructor; by apply IH.
Qed.

Lemma workspace_filter_sublist workspace_ids docs :
  sublist (workspace_filter workspace_ids docs) docs.
Proof.
  destruct workspace_ids as [[|id ids]|]; simpl; try reflexivity.
  apply filter_sublist.
Qed.

Lemma filter_preserves_sublist {A} (f : A -> bool) (l1 l2 : list A) :
  sublist l1 l2 -> sublist (List.filter f l1) (List.filter f l2).
Proof.
  induction 1 as [|x l1 l2 _ IH|x l1 l2 _ IH]; simpl.
  - constructor.
  - destruct (f x); [by constructor|exact IH].
  - destruct (f x); [by constructor|exact IH].
Qed.

Lemma filter_weaker_sublist {A} (f g : A -> bool) (l : list A) :
  (forall x, f x = true -> g x = true) ->
  sublist (List.filter f l) (List.filter g l).
Proof.
  intros Hfg. induction l as [|x l IH]; simpl; [constructor|].
  destruct (f x) eqn:Ef.
  - rewrite (Hfg x Ef). by constructor.
  - destruct (g x); [by constructor|exact IH].
Qed.

Lemma workspace_filter_preserves_sublist workspace_ids l1 l2 :
  sublist l1 l2 ->
  sublist (workspace_filter workspace_ids l1) (workspace_filter workspace_ids l2).
Proof.
  intros H. destruct workspace_ids as [[|id ids]|]; simpl; try exact H.
  by apply filter_preserves_sublist.
Qed.

Lemma sublist_Forall {A} (P : A -> Prop) (l1 l2 : list A) :
  sublist l1 l2 -> Forall P l2 -> Forall P l1.
Proof.
  induction 1 as [|x l1 l2 _ IH|x l1 l2 _ IH]; intros H.
  - constructor.
  - inversion H; subst. constructor; auto.
  - inversion H; subst. auto.
Qed.

(** The comparison with an aware threshold sees only its instant. *)
Lemma datetime_ge_instant t s1 s2 :
  aware s1 -> aware s2 -> instant s1 = instant s2 ->
  datetime_ge t s1 = datetime_ge t s2.
Proof.
  unfold aware, instant, datetime_ge.
  destruct (tzinfo s1), (tzinfo s2), (tzinfo t); intros; congruence.
Qed.

Lemma filter_since_instant s1 s2 docs :
  aware s1 -> aware s2 -> instant s1 = instant s2 ->
  filter_since parse_datetime s1 docs = filter_since parse_datetime s2 docs.
Proof.
  intros H1 H2 Heq. induction docs as [|doc docs IH]; simpl; [reflexivity|].
  destruct (parse_datetime (updated_at doc)) as [t|e]; simpl; [|reflexivity].
  by rewrite (datetime_ge_instant t s1 s2 H1 H2 Heq), IH.
Qed.

(** X1. Whatever the filters, [fetch_new_documents] makes one listing
    call and pulls every document of the enumeration before it filters:
    also when the filters keep nothing and when a timestamp fails to
    parse. *)
Theorem fetch_new_documents_drains_enumeration since workspace_ids docs st :
  list_all_documents (client (self st)) = gen_of_list docs ->
  let st' := snd (fetch_new_documents parse_datetime since workspace_ids st) in
  trace st' = (trace st ++ CallListAll :: map Fetched docs)%list /\
  items_fetched (trace st') = (items_fetched (trace st) + length docs)%nat.
Proof.
  intros Hgen st'. subst st'.
  rewrite (fetch_new_documents_listed _ _ _ _ _ Hgen). simpl.
  split; [reflexivity|].
  rewrite items_fetched_app. f_equal.
  change (items_fetched (map Fetched docs) = length docs).
  apply items_fetched_delivered.
Qed.

Lemma fetch_new_documents_sublist since workspace_ids docs st kept :
  list_all_documents (client (self st)) = gen_of_list docs ->
  fst (fetch_new_documents parse_datetime since workspace_ids st) = Ok kept ->
  sublist kept docs.
Proof.
  intros Hgen. rewrite (fetch_new_documents_listed _ _ _ _ _ Hgen). simpl.
  intros Hkept. destruct since as [since|].
  - destruct (filter_since parse_datetime (normalized since) docs) as [kept'|e] eqn:E;
      [|discriminate].
    injection Hkept as <-.
    etrans; [apply workspace_filter_sublist|]. by apply filter_since_sublist in E.
  - injection Hkept as <-. apply workspace_filter_sublist.
Qed.

(** X2. Whenever [fetch_new_documents] returns, with any threshold and
    any workspace list, what it returns is a subsequence of the client's
    list: no document is invented, reordered or repeated. *)
Theorem fetch_new_documents_returns_sublist since workspace_ids docs st kept :
  list_all_documents (client (self st)) = gen_of_list docs ->
  fst (fetch_new_documents parse_datetime since workspace_ids st) = Ok kept ->
  sublist kept docs /\
  (length kept <= length docs)%nat /\
  (NoDup docs -> NoDup kept).
Proof.
  intros Hgen Hkept.
  pose proof (fetch_new_documents_sublist _ _ _ _ _ Hgen Hkept) as Hsub.
  split; [exact Hsub|]. split.
  - by apply sublist_length.
  - intros Hnodup. by apply (sublist_NoDup kept docs).
Qed.

(** X3. A later threshold keeps a subsequence of what an earlier one
    keeps. *)
Theorem later_threshold_keeps_fewer earlier later workspace_ids docs st :
  list_all_documents (client (self st)) = gen_of_list docs ->
  Forall (parses_aware parse_datetime) docs ->
  instant earlier <= instant later ->
  exists kept_earlier kept_later,
    fst (fetch_new_documents parse_datetime (Some earlier) workspace_ids st) =
    Ok kept_earlier /\
    fst (fetch_new_documents parse_datetime (Some later) workspace_ids st) =
    Ok kept_later /\
    sublist kept_later kept_earlier.
Proof.
  intros Hgen Hdocs Hle.
  rewrite !(fetch_new_documents_listed _ _ _ _ _ Hgen). simpl.
  rewrite !(filter_since_aware _ _ _ (normalized_aware _) Hdocs).
  do 2 eexists. split; [reflexivity|]. split; [reflexivity|].
  apply workspace_filter_preserves_sublist, filter_weaker_sublist.
  intros doc. unfold updated_since. rewrite !normalized_instant.
  destruct (parse_datetime (updated_at doc)) as [t|e]; [|done].
  rewrite !Z.leb_le. lia.
Qed.

(** X4. Two thresholds that denote the same instant, whatever their
    zones (a naive one counting as UTC), give the same run. *)
Theorem thresholds_at_same_instant_agree s1 s2 workspace_ids st :
  instant s1 = instant s2 ->
  fetch_new_documents parse_datetime (Some s1) workspace_ids st =
  fetch_new_documents parse_datetime (Some s2) workspace_ids st.
Proof.
  intros Heq. rewrite !fetch_new_documents_run.
  destruct (collect _ _) as [[docs|e] st']; [|reflexivity].
  rewrite (filter_since_instant (normalized s1) (normalized s2) docs);
    [reflexivity|apply normalized_aware..|].
  by rewrite !normalized_instant.
Qed.

Lemma str_in_same_elements x (W W' : list string) :
  (forall y, In y W <-> In y W') -> str_in x W = str_in x W'.
Proof.
  intros Hsame.
  destruct (str_in x W) eqn:E, (str_in x W') eqn:E'; try reflexivity.
  - apply str_in_In, Hsame, str_in_In in E. congruence.
  - apply str_in_In, Hsame, str_in_In in E'. congruence.
Qed.

(** X5. Only the set of identifiers in a non-empty [workspace_ids]
    matters: two lists with the same members, in any order and with any
    repetitions, give the same run. *)
Theorem workspace_ids_order_and_repeats_irrelevant since (W W' : list string) st :
  W <> [] ->
  (forall id, In id W <-> In id W') ->
  fetch_new_documents parse_datetime since (Some W) st =
  fetch_new_documents parse_datetime since (Some W') st.
Proof.
  intros Hne Hsame. rewrite !fetch_new_documents_run.
  destruct (collect _ _) as [[docs|e] st']; [|reflexivity].
  assert (Hfilter : forall l,
             workspace_filter (Some W) l = workspace_filter (Some W') l).
  { intros l. destruct W as [|w ws]; [done|].
    destruct W' as [|w' ws'].
    - destruct (proj1 (Hsame w)). by left.
    - unfold workspace_filter. apply filter_ext. intros doc.
      by apply str_in_same_elements. }
  destruct since as [since|].
  - destruct (filter_since _ _ _); [|reflexivity]. by rewrite Hfilter.
  - by rewrite Hfilter.
Qed.

Lemma filter_since_zoneless since before doc t rest :
  aware since ->
  Forall (parses_aware parse_datetime) before ->
  parse_datetime (updated_at doc) = Ok t ->
  tzinfo t = None ->
  filter_since parse_datetime since (before ++ doc :: rest) =
  Raise (TypeError "can't compare offset-naive and offset-aware datetimes").
Proof.
  intros Hs Hbefore Hdoc Ht. induction Hbefore as [|d ds [t' [Ht' Ha]] _ IH]; simpl.
  - rewrite Hdoc. simpl. unfold datetime_ge. rewrite Ht.
    unfold aware in Hs. by destruct (tzinfo since).
  - rewrite Ht'. simpl. rewrite (datetime_ge_aware _ _ Ha Hs). simpl. by rewrite IH.
Qed.

(** X6. With a threshold, naive or aware, a document whose update
    timestamp parses without a zone makes [fetch_new_documents] raise
    [TypeError]: the threshold is always made aware, and Python does not
    compare a naive datetime with an aware one. *)
Theorem zoneless_update_timestamp_raises since workspace_ids before doc t rest st :
  list_all_documents (client (self st)) = gen_of_list (before ++ doc :: rest) ->
  Forall (parses_aware parse_datetime) before ->
  parse_datetime (updated_at doc) = Ok t ->
  tzinfo t = None ->
  fst (fetch_new_documents parse_datetime (Some since) workspace_ids st) =
  Raise (TypeError "can't compare offset-naive and offset-aware datetimes").
Proof.
  intros Hgen Hbefore Hdoc Ht.
  rewrite (fetch_new_documents_listed _ _ _ _ _ Hgen). simpl.
  by rewrite (filter_since_zoneless _ _ _ _ _ (normalized_aware since) Hbefore Hdoc Ht).
Qed.

Lemma filter_comm {A} (f g : A -> bool) (l : list A) :
  List.filter f (List.filter g l) = List.filter g (List.filter f l).
Proof.
  induction l as [|x l IH]; simpl; [reflexivity|].
  destruct (f x) eqn:Ef, (g x) eqn:Eg; simpl; rewrite ?Ef, ?Eg, IH; reflexivity.
Qed.

Lemma filter_idem {A} (f : A -> bool) (l : list A) :
  List.filter f (List.filter f l) = List.filter f l.
Proof.
  induction l as [|x l IH]; simpl; [reflexivity|].
  destruct (f x) eqn:Ef; simpl; rewrite ?Ef, IH; reflexivity.
Qed.

(** X7. The two filters commute: the call with a threshold and a
    workspace list returns the workspace filter of what the call with
    the threshold alone returns, and the update-time filter of what the
    call with the workspace list alone returns. *)
Theorem filters_commute since w ws docs st :
  list_all_documents (client (self st)) = gen_of_list docs ->
  Forall (parses_aware parse_datetime) docs ->
  let W := w :: ws in
  exists by_since by_workspace both,
    fst (fetch_new_documents parse_datetime (Some since) None st) = Ok by_since /\
    fst (fetch_new_documents parse_datetime None (Some W) st) = Ok by_workspace /\
    fst (fetch_new_documents parse_datetime (Some since) (Some W) st) = Ok both /\
    both = List.filter (fun doc => str_in (workspace_id doc) W) by_since /\
    both = List.filter (updated_since parse_datetime since) by_workspace.
Proof.
  intros Hgen Hdocs W.
  rewrite !(fetch_new_documents_listed _ _ _ _ _ Hgen). simpl.
  rewrite (filter_since_aware _ _ _ (normalized_aware since) Hdocs).
  do 3 eexists. repeat (split; [reflexivity|]).
  rewrite filter_comm. apply filter_ext. intros doc.
  apply updated_since_normalized.
Qed.

(** X8. Filtering is idempotent: a client whose list is the result of a
    call gives, for the same threshold and workspace list, that result
    again. *)
Theorem refiltering_changes_nothing since workspace_ids docs kept st st2 :
  list_all_documents (client (self st)) = gen_of_list docs ->
  Forall (parses_aware parse_datetime) docs ->
  fst (fetch_new_documents parse_datetime since workspace_ids st) = Ok kept ->
  list_all_documents (client (self st2)) = gen_of_list kept ->
  fst (fetch_new_documents parse_datetime since workspace_ids st2) = Ok kept.
Proof.
  intros Hgen Hdocs Hkept Hgen2.
  assert (Hsub : sublist kept docs).
  { exact (fetch_new_documents_sublist _ _ _ _ _ Hgen Hkept). }
  assert (Hkept_aware : Forall (parses_aware parse_datetime) kept).
  { by apply (sublist_Forall _ _ _ Hsub). }
  revert Hkept. rewrite (fetch_new_documents_listed _ _ _ _ _ Hgen).
  rewrite (fetch_new_documents_listed _ _ _ _ _ Hgen2). simpl.
  destruct since as [since|].
  - rewrite !(filter_since_aware _ _ _ (normalized_aware since)); [|done..].
    intros [= <-]. f_equal.
    destruct workspace_ids as [[|id ids]|]; simpl;
      rewrite ?(filter_comm (updated_since _ _)), ?filter_idem; reflexivity.
  - intros [= <-]. f_equal.
    destruct workspace_ids as [[|id ids]|]; simpl; by rewrite ?filter_idem.
Qed.

End Listing.

Section Transcripts.

Lemma string_append_assoc (s1 s2 s3 : string) :
  String.append (String.append s1 s2) s3 = String.append s1 (String.append s2 s3).
Proof.
  induction s1 as [|c s1 IH]; [reflexivity|].
  change (String c (String.append (String.append s1 s2) s3) =
          String c (String.append s1 (String.append s2 s3))).
  by rewrite IH.
Qed.

Lemma string_length_append (s1 s2 : string) :
  String.length (String.append s1 s2) = (String.length s1 + String.length s2)%nat.
Proof.
  induction s1 as [|c s1 IH]; [reflexivity|].
  change (S (String.length (String.append s1 s2)) =
          S (String.length s1 + String.length s2)).
  by rewrite IH.
Qed.

Lemma concat_app sep (l1 l2 : list string) :
  l1 <> [] -> l2 <> [] ->
  String.concat sep (l1 ++ l2) =
  String.append (String.concat sep l1) (String.append sep (String.concat sep l2)).
Proof.
  intros H1 H2. induction l1 as [|x l1 IH]; [done|].
  destruct l1 as [|y l1].
  - simpl. by destruct l2.
  - change (String.concat sep ((x :: y :: l1) ++ l2))
      with (String.append x (String.append sep (String.concat sep ((y :: l1) ++ l2)))).
    rewrite IH by done.
    change (String.concat sep (x :: y :: l1))
      with (String.append x (String.append sep (String.concat sep (y :: l1)))).
    by rewrite !string_append_assoc.
Qed.

Lemma concat_length sep (l : list string) :
  String.length (String.concat sep l) =
  (list_sum (map String.length l) + String.length sep * (length l - 1))%nat.
Proof.
  induction l as [|x l IH]; [simpl; lia|].
  destruct l as [|y l].
  - simpl. lia.
  - change (String.concat sep (x :: y :: l))
      with (String.append x (String.append sep (String.concat sep (y :: l)))).
    rewrite !string_length_append, IH. simpl. lia.
Qed.

(** X9. Transcripts compose: the transcript of two non-empty runs of
    segments, one after the other, is the two transcripts with a blank
    line between them; and the transcript of one segment is its text,
    or [str(segment)] when it has no text attribute, with no separator. *)
Theorem transcript_of_concatenation (first second : list TranscriptSegment) :
  first <> [] ->
  second <> [] ->
  _format_transcript_segments (first ++ second) =
  String.append (_format_transcript_segments first)
    (String.append blank_line (_format_transcript_segments second)) /\
  (forall segment,
      _format_transcript_segments [segment] =
      match text segment with
      | Some t => t
      | None => str_of segment
      end).
Proof.
  intros H1 H2. split; [|reflexivity].
  rewrite !format_transcript_segments_join, map_app.
  apply concat_app.
  - by destruct first.
  - by destruct second.
Qed.

(** X10. The length of a transcript is the total length of the
    segments' texts plus two characters for each of the gaps between
    consecutive segments; segments with empty text still get their
    separators. *)
Theorem transcript_length (segments : list TranscriptSegment) :
  String.length (_format_transcript_segments segments) =
  (list_sum (map (fun segment => String.length (segment_text segment)) segments)
   + 2 * (length segments - 1))%nat.
Proof.
  rewrite format_transcript_segments_join, concat_length.
  by rewrite map_map, length_map.
Qed.

Lemma items_fetched_no_item tr evs :
  Forall (fun ev => is_fetched ev = false) evs ->
  items_fetched (tr ++ evs) = items_fetched tr.
Proof.
  intros Hevs. rewrite items_fetched_app.
  assert (H0 : items_fetched evs = 0%nat).
  { unfold items_fetched. induction Hevs as [|ev evs Hev _ IH]; simpl; [reflexivity|].
    by rewrite Hev. }
  rewrite H0. lia.
Qed.

(** X11. [fetch_document_details] asks the client for the transcript
    first and the metadata second, both under the document's own
    identifier, once each and only if the transcript call succeeded; it
    never lists documents; and what it returns carries the document it
    was given. *)
Theorem fetch_document_details_calls doc st :
  let id := document_id doc in
  let st' := snd (fetch_document_details doc st) in
  (trace st' = (trace st ++ [CallTranscript id])%list \/
   trace st' = (trace st ++ [CallTranscript id; CallMetadata id])%list) /\
  items_fetched (trace st') = items_fetched (trace st) /\
  (forall e,
      get_document_transcript (client (self st)) id = Raise e ->
      trace st' = (trace st ++ [CallTranscript id])%list) /\
  (forall details,
      fst (fetch_document_details doc st) = Ok details ->
      document details = doc /\
      trace st' = (trace st ++ [CallTranscript id; CallMetadata id])%list).
Proof.
  intros id st'. subst st'. rewrite fetch_document_details_run. simpl.
  fold id.
  destruct (get_document_transcript (client (self st)) id) as [segments|e].
  - destruct (get_document_metadata (client (self st)) id) as [[[[dumped|e]|]]|e];
      simpl; (split; [by right|]); (split; [apply items_fetched_no_item; by repeat constructor|]);
      (split; [discriminate|]); intros details; try discriminate;
      by intros [= <-].
  - simpl. split; [by left|]. split; [apply items_fetched_no_item; by repeat constructor|].
    split; [done|]. discriminate.
Qed.

End Transcripts.

Section Lookup.

Variable parse_datetime : string -> Result datetime.
Variable GranolaClient_new : option string -> Result GranolaClient.

(** What the outcome of the scanning loop says about the generator. *)
Lemma scan_outcome id gen st :
  match fst (scan id gen st) with
  | Ok (Some doc) =>
      exists before later,
        gen = gen_then (before ++ [doc]) later /\
        Forall (fun d => document_id d <> id) before /\
        document_id doc = id
  | Ok None =>
      exists docs,
        gen = gen_of_list docs /\ Forall (fun d => document_id d <> id) docs
  | Raise e =>
      exists docs,
        gen = gen_then docs (GenRaise e) /\ Forall (fun d => document_id d <> id) docs
  end.
Proof.
  revert st. induction gen as [|doc rest IH|e]; intros st.
  - exists []. by split.
  - simpl. unfold bind. rewrite emit_run.
    destruct (String.eqb (document_id doc) id) eqn:E.
    + simpl. exists [], rest. apply String.eqb_eq in E. by repeat split.
    + apply String.eqb_neq in E. specialize (IH (after st [Fetched doc])).
      destruct (fst (scan id rest (after st [Fetched doc]))) as [[found|]|e].
      * destruct IH as [before [later [-> [Hbefore Hid]]]].
        exists (doc :: before), later. repeat split; [by constructor|done].
      * destruct IH as [docs [-> Hdocs]].
        exists (doc :: docs). split; [done|by constructor].
      * destruct IH as [docs [-> Hdocs]].
        exists (doc :: docs). split; [done|by constructor].
  - exists []. by split.
Qed.

(** The loop pulls no more items than draining the generator does. *)
Lemma scan_pulls_at_most_collect id gen st :
  exists scanned_evs drained_evs,
    snd (scan id gen st) = after st scanned_evs /\
    snd (collect gen st) = after st drained_evs /\
    (items_fetched scanned_evs <= items_fetched drained_evs)%nat.
Proof.
  revert st. induction gen as [|doc rest IH|e]; intros st.
  - exists [], []. by rewrite after_nil.
  - simpl. unfold bind. rewrite !emit_run.
    destruct (IH (after st [Fetched doc])) as [evs_s [evs_c [Hs [Hc Hle]]]].
    exists (if String.eqb (document_id doc) id then [Fetched doc] else Fetched doc :: evs_s),
           (Fetched doc :: evs_c).
    split; [|split].
    + destruct (String.eqb (document_id doc) id); [reflexivity|].
      by rewrite Hs, after_after.
    + destruct (collect rest (after st [Fetched doc])) as [[docs|e] st'] eqn:E;
        simpl in *; by rewrite Hc, after_after.
    + change (Fetched doc :: evs_c) with ([Fetched doc] ++ evs_c)%list.
      rewrite items_fetched_app.
      destruct (String.eqb (document_id doc) id).
      * change (items_fetched [Fetched doc]) with 1%nat. lia.
      * change (Fetched doc :: evs_s) with ([Fetched doc] ++ evs_s)%list.
        rewrite items_fetched_app. lia.
  - exists [], []. by rewrite after_nil.
Qed.

(** X12. What each outcome of [fetch_document_by_id] means, for any
    generator.  A document is returned only if it has the identifier and
    everything the enumeration yielded before it has not; [None] only if
    the enumeration ran to its end without a match; and an exception
    only if the enumeration raised it before any match. *)
Theorem fetch_document_by_id_outcomes id st :
  let gen := list_all_documents (client (self st)) in
  (forall doc,
      fst (fetch_document_by_id id st) = Ok (Some doc) ->
      exists before later,
        gen = gen_then (before ++ [doc]) later /\
        Forall (fun d => document_id d <> id) before /\
        document_id doc = id) /\
  (fst (fetch_document_by_id id st) = Ok None ->
   exists docs,
     gen = gen_of_list docs /\ Forall (fun d => document_id d <> id) docs) /\
  (forall e,
      fst (fetch_document_by_id id st) = Raise e ->
      exists docs,
        gen = gen_then docs (GenRaise e) /\
        Forall (fun d => document_id d <> id) docs).
Proof.
  intros gen. rewrite fetch_document_by_id_run. fold gen.
  pose proof (scan_outcome id gen (after st [CallListAll])) as H.
  split; [|split].
  - intros doc Hrun. by rewrite Hrun in H.
  - intros Hrun. by rewrite Hrun in H.
  - intros e Hrun. by rewrite Hrun in H.
Qed.

(** X13. On any generator, [fetch_document_by_id] pulls at most as many
    items as [fetch_new_documents] does; and when no document of a
    finite enumeration has the identifier, it pulls them all. *)
Theorem fetch_document_by_id_pulls_at_most_listing id since workspace_ids st :
  (items_fetched (trace (snd (fetch_document_by_id id st))) <=
   items_fetched
     (trace (snd (fetch_new_documents parse_datetime since workspace_ids st))))%nat /\
  (forall docs,
      list_all_documents (client (self st)) = gen_of_list docs ->
      Forall (fun d => document_id d <> id) docs ->
      trace (snd (fetch_document_by_id id st)) =
      (trace st ++ CallListAll :: map Fetched docs)%list /\
      items_fetched (trace (snd (fetch_document_by_id id st))) =
      (items_fetched (trace st) + length docs)%nat).
Proof.
  split.
  - rewrite fetch_document_by_id_run, fetch_new_documents_run.
    destruct (scan_pulls_at_most_collect id (list_all_documents (client (self st)))
                (after st [CallListAll])) as [evs_s [evs_c [Hs [Hc Hle]]]].
    rewrite Hs.
    assert (Hlist : snd
              match collect (list_all_documents (client (self st)))
                      (after st [CallListAll]) with
              | (Ok docs, st') =>
                  (match since with
                   | Some since =>
                       match filter_since parse_datetime (normalized since) docs with
                       | Ok kept => Ok (workspace_filter workspace_ids kept)
                       | Raise e => Raise e
                       end
                   | None => Ok (workspace_filter workspace_ids docs)
                   end, st')
              | (Raise e, st') => (Raise e, st')
              end = after (after st [CallListAll]) evs_c).
    { rewrite <- Hc. by destruct (collect _ _) as [[docs|e] st']. }
    rewrite Hlist. simpl. rewrite !items_fetched_app. lia.
  - intros docs Hgen Hmiss.
    rewrite fetch_document_by_id_run, Hgen. unfold gen_of_list.
    rewrite (scan_miss _ _ _ _ Hmiss). simpl. rewrite <- app_assoc. simpl.
    split; [reflexivity|].
    rewrite items_fetched_app. f_equal.
    change (items_fetched (map Fetched docs) = length docs).
    apply items_fetched_delivered.
Qed.

(** X14. Lookup agrees with listing: [fetch_document_by_id] finds a
    document exactly when the unfiltered list of [fetch_new_documents]
    has one with the identifier, and the document it finds is in that
    list. *)
Theorem lookup_agrees_with_listing id docs st :
  list_all_documents (client (self st)) = gen_of_list docs ->
  fst (fetch_new_documents parse_datetime None None st) = Ok docs /\
  ((exists doc, fst (fetch_document_by_id id st) = Ok (Some doc)) <->
   (exists doc, In doc docs /\ document_id doc = id)) /\
  (forall doc,
      fst (fetch_document_by_id id st) = Ok (Some doc) ->
      In doc docs /\ document_id doc = id).
Proof.
  intros Hgen.
  assert (Hfound : forall doc,
             fst (fetch_document_by_id id st) = Ok (Some doc) ->
             In doc docs /\ document_id doc = id).
  { intros doc. rewrite fetch_document_by_id_run, Hgen, scan_gen_of_list. simpl.
    intros [= Hfind]. apply find_some in Hfind as [Hin Hid].
    split; [exact Hin|]. by apply String.eqb_eq. }
  split; [|split; [split|exact Hfound]].
  - by rewrite (fetch_new_documents_listed _ _ _ _ _ Hgen).
  - intros [doc Hdoc]. exists doc. by apply Hfound.
  - intros [doc [Hin Hid]].
    rewrite fetch_document_by_id_run, Hgen, scan_gen_of_list. simpl.
    destruct (List.find (has_id id) docs) as [found|] eqn:E; [by exists found|].
    exfalso. apply (find_none _ _ E) in Hin. unfold has_id in Hin.
    apply String.eqb_neq in Hin. done.
Qed.

(** X15. Construction.  An empty token string is no token: the client
    is built as for [None].  A failure of the client's constructor is
    the failure of the fetcher's.  And the fetcher that is built talks
    to the client that was built for it. *)
Theorem construction_passes_token_and_failures token :
  let passed := if truthy_str token then token else None in
  GranolaFetcher_init GranolaClient_new (Some "") =
  GranolaFetcher_init GranolaClient_new None /\
  (forall e,
      GranolaClient_new passed = Raise e ->
      GranolaFetcher_init GranolaClient_new token = Raise e) /\
  (forall c docs id,
      GranolaClient_new passed = Ok c ->
      list_all_documents c = gen_of_list docs ->
      exists fetcher,
        GranolaFetcher_init GranolaClient_new token = Ok fetcher /\
        fst (fetch_document_by_id id {| self := fetcher; trace := [] |}) =
        Ok (List.find (has_id id) docs)).
Proof.
  intros passed. subst passed. split; [reflexivity|]. split.
  - intros e He. unfold GranolaFetcher_init.
    destruct (truthy_str token); by rewrite He.
  - intros c docs id Hc Hgen. exists {| client := c |}. split.
    + unfold GranolaFetcher_init. destruct (truthy_str token); by rewrite Hc.
    + rewrite fetch_document_by_id_run. simpl. by rewrite Hgen, scan_gen_of_list.
Qed.

End Lookup.

(** ** The further properties on the concrete world *)

(** The second timestamp does not parse; all three documents have been
    pulled all the same. *)
Lemma fetch_new_documents_drains_enumeration_witness :
  let docs := [Demo.doc1; Demo.doc_bad; Demo.doc2] in
  let st := Demo.st_docs docs in
  let run := fetch_new_documents Demo.parse (Some (Demo.utc 150)) None st in
  fst run = Raise (ParserError "yesterday") /\
  trace (snd run) =
  [CallListAll; Fetched Demo.doc1; Fetched Demo.doc_bad; Fetched Demo.doc2] /\
  items_fetched (trace (snd run)) = 3%nat.
Proof.
  intros docs st run. split; [reflexivity|].
  exact (fetch_new_documents_drains_enumeration Demo.parse
           (Some (Demo.utc 150)) None docs st eq_refl).
Defined.

Lemma fetch_new_documents_returns_sublist_witness :
  let docs := [Demo.doc1; Demo.doc2; Demo.doc3] in
  let st := Demo.st_docs docs in
  fst (fetch_new_documents Demo.parse (Some (Demo.utc 150)) (Some ["ws-a"]) st) =
  Ok [Demo.doc3] /\
  sublist [Demo.doc3] docs /\
  (length [Demo.doc3] <= length docs)%nat /\
  (NoDup docs -> NoDup [Demo.doc3]).
Proof.
  intros docs st. split; [reflexivity|].
  exact (fetch_new_documents_returns_sublist Demo.parse
           (Some (Demo.utc 150)) (Some ["ws-a"]) docs st [Demo.doc3] eq_refl eq_refl).
Defined.

Lemma later_threshold_keeps_fewer_witness :
  let docs := [Demo.doc1; Demo.doc2; Demo.doc3] in
  let st := Demo.st_docs docs in
  instant (Demo.utc 150) <= instant (Demo.utc 250) /\
  exists kept_earlier kept_later,
    fst (fetch_new_documents Demo.parse (Some (Demo.utc 150)) None st) = Ok kept_earlier /\
    fst (fetch_new_documents Demo.parse (Some (Demo.utc 250)) None st) = Ok kept_later /\
    sublist kept_later kept_earlier.
Proof.
  intros docs st.
  assert (Hle : instant (Demo.utc 150) <= instant (Demo.utc 250))
    by (unfold instant, Demo.utc; simpl; lia).
  split; [exact Hle|].
  exact (later_threshold_keeps_fewer Demo.parse (Demo.utc 150) (Demo.utc 250) None
           docs st eq_refl demo_timestamps_parse Hle).
Defined.

(** 03:30 at +01:00 and a naive 02:30 are the same instant. *)
Lemma thresholds_at_same_instant_agree_witness :
  let st := Demo.st_docs [Demo.doc1; Demo.doc2; Demo.doc3] in
  let s1 := {| wall := 210; tzinfo := Some 60 |} in
  let s2 := Demo.naive 150 in
  instant s1 = instant s2 /\
  fetch_new_documents Demo.parse (Some s1) (Some ["ws-a"]) st =
  fetch_new_documents Demo.parse (Some s2) (Some ["ws-a"]) st.
Proof.
  intros st s1 s2. split; [reflexivity|].
  exact (thresholds_at_same_instant_agree Demo.parse s1 s2 (Some ["ws-a"]) st eq_refl).
Defined.

Lemma workspace_ids_order_and_repeats_irrelevant_witness :
  let st := Demo.st_docs [Demo.doc1; Demo.doc2; Demo.doc3] in
  let W := ["ws-a"; "ws-b"] in
  let W' := ["ws-b"; "ws-a"; "ws-b"] in
  W <> [] /\
  (forall id, In id W <-> In id W') /\
  fetch_new_documents Demo.parse None (Some W) st =
  fetch_new_documents Demo.parse None (Some W') st.
Proof.
  intros st W W'.
  assert (Hne : W <> []) by discriminate.
  assert (Hsame : forall id, In id W <-> In id W') by (intros id; simpl; tauto).
  split; [exact Hne|]. split; [exact Hsame|].
  exact (workspace_ids_order_and_repeats_irrelevant Demo.parse None W W' st Hne Hsame).
Defined.

(** The threshold itself is naive here; the second document's timestamp
    has no zone. *)
Lemma zoneless_update_timestamp_raises_witness :
  let st := Demo.st_docs ([Demo.doc1] ++ Demo.doc_naive :: [Demo.doc2]) in
  Demo.parse (updated_at Demo.doc_naive) = Ok (Demo.naive 400) /\
  fst (fetch_new_documents Demo.parse (Some (Demo.naive 50)) None st) =
  Raise (TypeError "can't compare offset-naive and offset-aware datetimes").
Proof.
  intros st. split; [reflexivity|].
  apply (zoneless_update_timestamp_raises Demo.parse (Demo.naive 50) None
           [Demo.doc1] Demo.doc_naive (Demo.naive 400) [Demo.doc2] st);
    [reflexivity| |reflexivity|reflexivity].
  repeat constructor. eexists. split; [reflexivity|discriminate].
Defined.

Lemma filters_commute_witness :
  let docs := [Demo.doc1; Demo.doc2; Demo.doc3] in
  let st := Demo.st_docs docs in
  let since := Demo.utc 150 in
  let W := ["ws-a"] in
  exists by_since by_workspace both,
    fst (fetch_new_documents Demo.parse (Some since) None st) = Ok by_since /\
    fst (fetch_new_documents Demo.parse None (Some W) st) = Ok by_workspace /\
    fst (fetch_new_documents Demo.parse (Some since) (Some W) st) = Ok both /\
    both = List.filter (fun doc => str_in (workspace_id doc) W) by_since /\
    both = List.filter (updated_since Demo.parse since) by_workspace.
Proof.
  intros docs st since W.
  exact (filters_commute Demo.parse since "ws-a" [] docs st eq_refl demo_timestamps_parse).
Defined.

Lemma refiltering_changes_nothing_witness :
  let st := Demo.st_docs [Demo.doc1; Demo.doc2; Demo.doc3] in
  let st2 := Demo.st_docs [Demo.doc2; Demo.doc3] in
  fst (fetch_new_documents Demo.parse (Some (Demo.utc 150)) None st) =
  Ok [Demo.doc2; Demo.doc3] /\
  fst (fetch_new_documents Demo.parse (Some (Demo.utc 150)) None st2) =
  Ok [Demo.doc2; Demo.doc3].
Proof.
  intros st st2. split; [reflexivity|].
  exact (refiltering_changes_nothing Demo.parse (Some (Demo.utc 150)) None
           [Demo.doc1; Demo.doc2; Demo.doc3] [Demo.doc2; Demo.doc3] st st2
           eq_refl demo_timestamps_parse eq_refl eq_refl).
Defined.

Lemma transcript_of_concatenation_witness :
  let first := [Demo.hello] in
  let second := [Demo.untyped; Demo.world] in
  first <> [] /\ second <> [] /\
  _format_transcript_segments (first ++ second) =
  String.append "Hello" (String.append blank_line
    (String.append "<raw chunk>" (String.append blank_line "World"))).
Proof.
  intros first second.
  assert (H1 : first <> []) by discriminate.
  assert (H2 : second <> []) by discriminate.
  split; [exact H1|]. split; [exact H2|].
  destruct (transcript_of_concatenation first second H1 H2) as [Happ _].
  rewrite Happ. reflexivity.
Defined.

Lemma fetch_document_details_calls_witness :
  let st := Demo.st_docs [Demo.doc1] in
  let st_down :=
    Demo.state_of (Demo.client_of GenStop (Raise Demo.network_down)
                     (Ok {| model_dump := None |})) in
  trace (snd (fetch_document_details Demo.doc1 st)) =
  [CallTranscript "doc-1"; CallMetadata "doc-1"] /\
  trace (snd (fetch_document_details Demo.doc1 st_down)) = [CallTranscript "doc-1"].
Proof.
  intros st st_down. split.
  - destruct (fetch_document_details_calls Demo.doc1 st) as [_ [_ [_ Hok]]].
    destruct (Hok {| document := Demo.doc1;
                     transcript := _format_transcript_segments [Demo.hello; Demo.world];
                     metadata := Demo.dumped |} eq_refl) as [_ Htrace].
    exact Htrace.
  - destruct (fetch_document_details_calls Demo.doc1 st_down) as [_ [_ [Hdown _]]].
    exact (Hdown Demo.network_down eq_refl).
Defined.

Lemma fetch_document_by_id_outcomes_witness :
  let bare := Ok {| model_dump := None |} in
  let st := Demo.st_docs [Demo.doc1; Demo.doc2; Demo.doc2'] in
  let gen_down := gen_then [Demo.doc1] (GenRaise Demo.network_down) in
  let st_down := Demo.state_of (Demo.client_of gen_down (Ok []) bare) in
  (exists before later,
      gen_of_list [Demo.doc1; Demo.doc2; Demo.doc2'] =
      gen_then (before ++ [Demo.doc2]) later /\
      Forall (fun d => document_id d <> "doc-2") before /\
      document_id Demo.doc2 = "doc-2") /\
  (exists docs,
      gen_of_list [Demo.doc1; Demo.doc2; Demo.doc2'] = gen_of_list docs /\
      Forall (fun d => document_id d <> "doc-9") docs) /\
  (exists docs,
      gen_down = gen_then docs (GenRaise Demo.network_down) /\
      Forall (fun d => document_id d <> "doc-2") docs).
Proof.
  intros bare st gen_down st_down. split; [|split].
  - destruct (fetch_document_by_id_outcomes "doc-2" st) as [Hsome _].
    exact (Hsome Demo.doc2 eq_refl).
  - destruct (fetch_document_by_id_outcomes "doc-9" st) as [_ [Hnone _]].
    exact (Hnone eq_refl).
  - destruct (fetch_document_by_id_outcomes "doc-2" st_down) as [_ [_ Hraise]].
    exact (Hraise Demo.network_down eq_refl).
Defined.

Lemma fetch_document_by_id_pulls_at_most_listing_witness :
  let docs := [Demo.doc1; Demo.doc2; Demo.doc3] in
  let st := Demo.st_docs docs in
  (items_fetched (trace (snd (fetch_document_by_id "doc-2" st))) <=
   items_fetched (trace (snd (fetch_new_documents Demo.parse None None st))))%nat /\
  items_fetched (trace (snd (fetch_document_by_id "doc-9" st))) = 3%nat.
Proof.
  intros docs st. split.
  - destruct (fetch_document_by_id_pulls_at_most_listing Demo.parse "doc-2" None None st)
      as [Hle _]. exact Hle.
  - destruct (fetch_document_by_id_pulls_at_most_listing Demo.parse "doc-9" None None st)
      as [_ Hmiss].
    destruct (Hmiss docs eq_refl) as [_ Hcount]; [|exact Hcount].
    repeat constructor; discriminate.
Defined.

Lemma lookup_agrees_with_listing_witness :
  let docs := [Demo.doc1; Demo.doc2] in
  let st := Demo.st_docs docs in
  fst (fetch_new_documents Demo.parse None None st) = Ok docs /\
  In Demo.doc2 docs /\ document_id Demo.doc2 = "doc-2".
Proof.
  intros docs st.
  destruct (lookup_agrees_with_listing Demo.parse "doc-2" docs st eq_refl)
    as [Hlist [_ Hfound]].
  split; [exact Hlist|]. exact (Hfound Demo.doc2 eq_refl).
Defined.

Lemma construction_passes_token_and_failures_witness :
  let c := Demo.client_of (gen_of_list [Demo.doc1; Demo.doc2]) (Ok [])
             (Ok {| model_dump := None |}) in
  let detect := fun token : option string =>
    match token with
    | None => Ok c
    | Some _ => Raise Demo.network_down
    end in
  GranolaFetcher_init detect (Some "secret") = Raise Demo.network_down /\
  exists fetcher,
    GranolaFetcher_init detect (Some "") = Ok fetcher /\
    fst (fetch_document_by_id "doc-2" {| self := fetcher; trace := [] |}) =
    Ok (Some Demo.doc2).
Proof.
  intros c detect. split.
  - destruct (construction_passes_token_and_failures detect (Some "secret"))
      as [_ [Hfail _]].
    exact (Hfail Demo.network_down eq_refl).
  - destruct (construction_passes_token_and_failures detect (Some ""))
      as [_ [_ Hbuilt]].
    exact (Hbuilt c [Demo.doc1; Demo.doc2] "doc-2" eq_refl eq_refl).
Defined.
